(** * Universe selection of the QVAL tutorial (Part2-Universe-Selection.ipynb)

    The notebook downloads the securities master of one exchange as a
    CSV file, publishes it as the base universe, loads it into a pandas
    DataFrame and derives three more universes with one boolean mask
    each (sector equality, industry substring, category prefix).  Each
    filtered frame is written with [to_csv] and handed to the platform
    with [create_universe].

    The embedding follows the notebook cell by cell.  pandas objects are
    shallow: a frame is its column names and its labelled rows, a Series
    is the list of its values in row order.  Files are kept in parsed
    form (a header and records of fields), so quoting and number
    formatting are left out; the columns the notebook reads are object
    columns whose cells are text or NaN, as its own outputs show
    ([dtype=object]): a column that pandas would load as numbers or
    booleans is outside the model. *)

From Stdlib Require Import String Ascii.
From stdpp Require Import base option list strings pretty gmap sets.

Open Scope string_scope.

(** ** Python string methods used by the masks *)

Module Str.

(** [s.startswith(pat)] *)
Definition startswith (pat s : string) : bool := String.prefix pat s.

(** [re.search(pat, s)] for a pattern without metacharacters, which is
    what [Series.str.contains] runs on every element: [pat] occurs at
    some position of [s]. *)
Fixpoint contains (pat s : string) : bool :=
  String.prefix pat s ||
  match s with
  | EmptyString => false
  | String _ s' => contains pat s'
  end.

End Str.

(** ** The pandas operations of the notebook *)

Module Pandas.

(** A cell of an object column: text, or NaN for a missing value. *)
Definition cell : Type := option string.
Definition NaN : cell := None.

(** A parsed CSV file. *)
Record CsvFile : Type := mkCsv {
  header : list string;
  records : list (list cell)
}.

(** A frame: column names, and the rows under their index labels. *)
Record DataFrame : Type := mkDataFrame {
  columns : list string;
  rows : list (nat * list cell)
}.

Inductive exn : Type :=
| AttributeError (name : string)
| KeyError (names : list string)
| ValueError (msg : string)
| ParserError (msg : string)
| FileNotFoundError (path : string).

(** [Index.get_loc]: position of a column name. *)
Definition get_loc (name : string) (cols : list string) : option nat :=
  fst <$> list_find (λ c, c = name) cols.

(** The field of a record at a position; a record that stops short of
    it has no value there. *)
Definition field (j : nat) (r : list cell) : cell := default NaN (r !! j).

(** The texts [pd.read_csv] takes for a missing value by default (the
    last one since pandas 2.0); an empty field is missing in any case. *)
Definition na_values : list string :=
  [""; "#N/A"; "#N/A N/A"; "#NA"; "-1.#IND"; "-1.#QNAN"; "-NaN"; "-nan";
   "1.#IND"; "1.#QNAN"; "<NA>"; "N/A"; "NA"; "NULL"; "NaN"; "n/a"; "nan";
   "null"; "None"].

Definition na_filter (c : cell) : cell :=
  match c with
  | Some t => if decide (t ∈ na_values) then NaN else Some t
  | None => NaN
  end.

(** A blank line, which the reader skips: no field, or one empty field. *)
Definition blank (r : list cell) : Prop := r = [] ∨ r = [NaN].

(** A record read against the header: missing trailing fields load as
    NaN.  (A record longer than the header does not get this far, see
    [pd_read_csv].) *)
Definition fit (n : nat) (r : list cell) : list cell :=
  take n (r ++ replicate (n - length r) NaN).

(** The frame [pd.read_csv] builds from a tokenized file: the header
    names the columns, blank lines are skipped, the remaining records
    get the labels 0, 1, 2, ... of a RangeIndex, and NA texts load as
    NaN.  Not modelled: the conversion of a column whose values all
    read as numbers or booleans to a numeric or boolean column (cells
    stay text or NaN), and the renaming of a repeated column name. *)
Definition read_csv (f : CsvFile) : DataFrame :=
  {| columns := header f;
     rows := imap (λ i r, (i, na_filter <$> fit (length (header f)) r))
                  (filter (λ r, ¬ blank r) (records f)) |}.

(** [pd.read_csv(path)] on the file found: a record with more fields
    than the header stops the tokenizer.  (When it is the first record
    that is longer, pandas takes the surplus leading fields for an
    index instead; such files are treated as malformed here too.) *)
Definition pd_read_csv (f : CsvFile) : exn + DataFrame :=
  if decide (Forall (λ r, (length r ≤ length (header f))%nat) (records f))
  then inr (read_csv f)
  else inl (ParserError "Error tokenizing data").

(** [df.name]: attribute access to a column. *)
Definition getattr (df : DataFrame) (name : string) : exn + list cell :=
  match get_loc name (columns df) with
  | Some j => inr ((λ r, field j r.2) <$> rows df)
  | None => inl (AttributeError name)
  end.

(** [s == lit]: elementwise comparison; NaN compares unequal. *)
Definition eq_lit (s : list cell) (lit : string) : list (option bool) :=
  (λ c, Some (match c with Some t => String.eqb t lit | None => false end)) <$> s.

(** [s.fillna(v)] *)
Definition fillna (s : list cell) (v : string) : list cell :=
  (λ c, Some (default v c)) <$> s.

(** [s.str.contains(pat)] and [s.str.startswith(pat)]: the string
    method on every text element; NaN stays NaN in the result.  The
    pattern of [str.contains] is a regular expression in pandas; the
    search below is right for a pattern without metacharacters, which
    is how the notebook calls it ("REIT"). *)
Definition str_contains (s : list cell) (pat : string) : list (option bool) :=
  (λ c, match c with Some t => Some (Str.contains pat t) | None => None end) <$> s.

Definition str_startswith (s : list cell) (pat : string) : list (option bool) :=
  (λ c, match c with Some t => Some (Str.startswith pat t) | None => None end) <$> s.

(** [s.unique()]: the distinct values in order of first appearance. *)
Fixpoint unique (s : list cell) : list cell :=
  match s with
  | [] => []
  | c :: s' => c :: filter (λ d, d ≠ c) (unique s')
  end.

(** [df[mask]]: the rows whose mask entry is True, under their own
    labels and in frame order.  A mask of another length or with a NaN
    entry cannot be used for indexing. *)
Definition getitem_mask (df : DataFrame) (mask : list (option bool)) : exn + DataFrame :=
  if decide (length mask = length (rows df)) then
    if decide (Forall is_Some mask) then
      inr {| columns := columns df;
             rows := fst <$> filter (λ p, p.2 = Some true) (zip (rows df) mask) |}
    else inl (ValueError "Cannot mask with non-boolean array containing NA / NaN values")
  else inl (ValueError "Item wrong length").

(** [df[[names]]]: the named columns, in the order asked for. *)
Definition getitem_cols (df : DataFrame) (names : list string) : exn + DataFrame :=
  match mapM (M := option) (λ n, get_loc n (columns df)) names with
  | Some js =>
      inr {| columns := names;
             rows := (λ r, (r.1, (λ j, field j r.2) <$> js)) <$> rows df |}
  | None => inl (KeyError (filter (λ n, n ∉ columns df) names))
  end.

(** [df.head()] *)
Definition head (df : DataFrame) : DataFrame :=
  {| columns := columns df; rows := take 5 (rows df) |}.

(** [df.to_csv(path)] with its default [index=True]: the index labels
    are written as a first column under an empty name, then the
    frame's columns. *)
Definition to_csv (df : DataFrame) : CsvFile :=
  {| header := "" :: columns df;
     records := (λ r, Some (pretty r.1) :: r.2) <$> rows df |}.

End Pandas.

Import Pandas.

(** ** The platform's side of the notebook *)

Module Platform.

(** Modelled from the spec: the identifier column that keys a security
    record.  The platform's services are not part of the repository;
    its files carry the security id of every record under this name. *)
Definition identifier : string := "Sid".

(** Modelled from the spec: the identifiers a membership file provides,
    one for every record with a non-null identifier, in file order.
    This stands for the reading done inside the platform's
    [create_universe], whose code is not in the repository.  What the
    platform does with a file that has no identifier column at all is
    not known from the repository; no identifier is read from it. *)
Definition sids (f : CsvFile) : list string :=
  match get_loc identifier (header f) with
  | Some j => omap (λ r, na_filter (field j r)) (records f)
  | None => []
  end.

(** Modelled from the spec: a universe is the set of those identifiers
    (duplicates collapse, no order, no other attribute). *)
Definition members (f : CsvFile) : gset string := list_to_set (sids f).

(** Modelled from the spec: the confirmation record of a publication. *)
Record Confirmation : Type := mkConfirmation {
  code : string;
  provided : nat;
  inserted : nat;
  total_after_insert : nat
}.

End Platform.

Import Platform.

(** ** The notebook as a program *)

(** What a run can touch: the files of the working directory, and the
    membership snapshot last published under each universe name. *)
Record Env : Type := mkEnv {
  files : gmap string CsvFile;
  universes : gmap string (gset string)
}.

(** A statement either completes with a value or raises; either way it
    leaves an environment behind. *)
Inductive outcome (A : Type) : Type :=
| Done (a : A) (e : Env)
| Raised (x : exn) (e : Env).
Arguments Done {A} a e.
Arguments Raised {A} x e.

Definition Py (A : Type) : Type := Env → outcome A.

#[global] Instance Py_ret : MRet Py := λ A a e, Done a e.
#[global] Instance Py_bind : MBind Py := λ A B k m e,
  match m e with
  | Done a e' => k a e'
  | Raised x e' => Raised x e'
  end.

#[global] Instance exn_ret : MRet (sum exn) := λ A a, inr a.
#[global] Instance exn_bind : MBind (sum exn) := λ A B k r,
  match r with
  | inr a => k a
  | inl x => inl x
  end.

(** An expression that only computes: its exception, if any, is raised
    in the environment as it stands. *)
Definition eval {A : Type} (r : exn + A) : Py A := λ e,
  match r with
  | inr a => Done a e
  | inl x => Raised x e
  end.

Definition open_read (path : string) : Py CsvFile := λ e,
  match files e !! path with
  | Some f => Done f e
  | None => Raised (FileNotFoundError path) e
  end.

Definition open_write (path : string) (f : CsvFile) : Py unit := λ e,
  Done tt {| files := <[path := f]> (files e); universes := universes e |}.

(** Modelled from the spec: "fetch master table for exchange X with
    field-set Y -> delimited file".  The table the platform serves is
    the parameter [master]; the call stores it under [path]. *)
Definition download_master_file (master : CsvFile) (path : string) : Py unit :=
  open_write path master.

(** Modelled from the spec: "publish universe named Z from membership
    file -> confirmation record".  The snapshot is (re)published under
    the name and the counts are those of the snapshot; what the platform
    keeps of an earlier membership is its own business and is not
    reproduced. *)
Definition publish (name : string) (f : CsvFile) : Py Confirmation := λ e,
  Done {| code := name;
          provided := length (sids f);
          inserted := size (members f);
          total_after_insert := size (members f) |}
       {| files := files e;
          universes := <[name := members f]> (universes e) |}.

(** Modelled from the spec: [create_universe(name, path)] publishes the
    universe from the membership file found under [path]. *)
Definition create_universe (name path : string) : Py Confirmation :=
  f ← open_read path;
  publish name f.

(** The three mask expressions of the notebook. *)
Definition financials (nyse_securities : DataFrame) : exn + DataFrame :=
  s ← getattr nyse_securities "sharadar_Sector";
  getitem_mask nyse_securities (eq_lit s "Financial Services").

Definition reits (nyse_securities : DataFrame) : exn + DataFrame :=
  s ← getattr nyse_securities "sharadar_Industry";
  getitem_mask nyse_securities (str_contains (fillna s "") "REIT").

Definition adrs (nyse_securities : DataFrame) : exn + DataFrame :=
  s ← getattr nyse_securities "sharadar_Category";
  getitem_mask nyse_securities (str_startswith (fillna s "") "ADR").

(** [df.to_csv(path)] as a statement: the written file lands under [path]. *)
Definition df_to_csv (df : DataFrame) (path : string) : Py unit :=
  open_write path (to_csv df).

(** The code cells, named by their execution counts.  The frame bound
    to [nyse_securities] in cell 3 is passed on to the later cells. *)
Definition cell_1 (master : CsvFile) : Py unit :=
  download_master_file master "sharadar_nyse_securities.csv".

Definition cell_2 : Py Confirmation :=
  create_universe "nyse-stk" "sharadar_nyse_securities.csv".

Definition cell_3 : Py (DataFrame * list cell) :=
  f ← open_read "sharadar_nyse_securities.csv";
  nyse_securities ← eval (pd_read_csv f);
  s ← eval (getattr nyse_securities "sharadar_Sector");
  mret (nyse_securities, unique s).

Definition cell_4 (nyse_securities : DataFrame) : Py Confirmation :=
  out ← eval (financials nyse_securities);
  df_to_csv out "sharadar_nyse_financials.csv";;
  create_universe "nyse-financials" "sharadar_nyse_financials.csv".

Definition cell_5 (nyse_securities : DataFrame) : Py Confirmation :=
  out ← eval (reits nyse_securities);
  df_to_csv out "sharadar_nyse_reits.csv";;
  create_universe "nyse-reits" "sharadar_nyse_reits.csv".

Definition cell_6 (nyse_securities : DataFrame) : Py (list cell) :=
  s ← eval (getattr nyse_securities "sharadar_Category");
  mret (unique s).

Definition cell_8 (nyse_securities : DataFrame) : Py DataFrame :=
  out ← eval (adrs nyse_securities);
  sel ← eval (getitem_cols out ["sharadar_Ticker"; "sharadar_Name"; "sharadar_Category"]);
  mret (head sel).

Definition cell_9 (nyse_securities : DataFrame) : Py Confirmation :=
  out ← eval (adrs nyse_securities);
  df_to_csv out "sharadar_nyse_adrs.csv";;
  create_universe "nyse-adrs" "sharadar_nyse_adrs.csv".

(** Running the notebook from top to bottom; the first cell that raises
    ends the run. *)
Definition notebook (master : CsvFile) : Py unit :=
  cell_1 master;;
  cell_2;;
  '(nyse_securities, _) ← cell_3;
  cell_4 nyse_securities;;
  cell_5 nyse_securities;;
  cell_6 nyse_securities;;
  cell_8 nyse_securities;;
  cell_9 nyse_securities;;
  mret tt.

(** ** Vocabulary of the specification *)

(** No record has more fields than the header. *)
Definition rectangular (f : CsvFile) : Prop :=
  Forall (λ r, (length r ≤ length (header f))%nat) (records f).


(** The value a row holds in a named column. *)
Definition at_col (df : DataFrame) (name : string) (r : nat * list cell) : cell :=
  match get_loc name (columns df) with
  | Some j => field j r.2
  | None => NaN
  end.

(** A null is read as the empty string. *)
Definition as_empty (c : cell) : string := default "" c.

(** [pat] occurs somewhere in [s]; [s] begins with [pat]. *)
Definition substring_of (pat s : string) : Prop := ∃ l t, s = l +:+ pat +:+ t.
Definition prefix_of (pat s : string) : Prop := ∃ t, s = pat +:+ t.

(** The descriptive fields of a row. *)
Definition sector (df : DataFrame) (r : nat * list cell) : cell :=
  at_col df "sharadar_Sector" r.
Definition industry (df : DataFrame) (r : nat * list cell) : cell :=
  at_col df "sharadar_Industry" r.
Definition category (df : DataFrame) (r : nat * list cell) : cell :=
  at_col df "sharadar_Category" r.

(** The identifier is a unique key of the table: no two records carry
    the same identifier. *)
Definition unique_key (master : CsvFile) : Prop := NoDup (sids master).

(** The files the three filters write, and the four universe names. *)
Definition outputs : list string :=
  ["sharadar_nyse_financials.csv"; "sharadar_nyse_reits.csv"; "sharadar_nyse_adrs.csv"].

Definition names : list string :=
  ["nyse-stk"; "nyse-financials"; "nyse-reits"; "nyse-adrs"].

(** The universe a frame stands for once written and published. *)
Definition universe_of (df : DataFrame) : gset string := members (to_csv df).

(** The identifiers of the rows of a frame, for the rows that have one. *)
Definition row_id (df : DataFrame) (r : nat * list cell) : cell := at_col df identifier r.

(** The environment once a file is stored under [path] and published
    under [name]. *)
Definition stored (path name : string) (f : CsvFile) (e : Env) : Env :=
  {| files := <[path := f]> (files e);
     universes := <[name := members f]> (universes e) |}.

(** The environments a run goes through: after the base universe, and
    after each of the three filtered frames. *)
Definition after_all (master : CsvFile) (e : Env) : Env :=
  stored "sharadar_nyse_securities.csv" "nyse-stk" master e.

Definition after_financials (master : CsvFile) (F : DataFrame) (e : Env) : Env :=
  stored "sharadar_nyse_financials.csv" "nyse-financials" (to_csv F) (after_all master e).

Definition after_reits (master : CsvFile) (F R : DataFrame) (e : Env) : Env :=
  stored "sharadar_nyse_reits.csv" "nyse-reits" (to_csv R) (after_financials master F e).

Definition after_run (master : CsvFile) (F R A : DataFrame) (e : Env) : Env :=
  stored "sharadar_nyse_adrs.csv" "nyse-adrs" (to_csv A) (after_reits master F R e).

(** The run in closed form: which cell ends it, and in what environment. *)
Definition run_of (master : CsvFile) (e : Env) : outcome unit :=
  match pd_read_csv master with
  | inl x => Raised x (after_all master e)
  | inr df =>
  match financials df with
  | inl x => Raised x (after_all master e)
  | inr F =>
      match reits df with
      | inl x => Raised x (after_financials master F e)
      | inr R =>
          match adrs df with
          | inl x => Raised x (after_reits master F R e)
          | inr A =>
              match getitem_cols A ["sharadar_Ticker"; "sharadar_Name"; "sharadar_Category"] with
              | inl x => Raised x (after_reits master F R e)
              | inr _ => Done tt (after_run master F R A e)
              end
          end
      end
  end
  end.

(** The environment an outcome leaves. *)
Definition env_of {A : Type} (o : outcome A) : Env :=
  match o with
  | Done _ e => e
  | Raised _ e => e
  end.

(** ** Example tables *)

(** An empty working directory, nothing published yet. *)
Definition e0 : Env := {| files := ∅; universes := ∅ |}.

Definition example_header : list string :=
  ["Sid"; "sharadar_Ticker"; "sharadar_Name";
   "sharadar_Sector"; "sharadar_Industry"; "sharadar_Category"].

(** Ids A, B, C with sectors "Financial Services", "Energy", null. *)
Definition example_sectors : CsvFile :=
  {| header := example_header;
     records :=
       [ [Some "A"; NaN; NaN; Some "Financial Services"; NaN; NaN];
         [Some "B"; NaN; NaN; Some "Energy"; NaN; NaN];
         [Some "C"; NaN; NaN; NaN; NaN; NaN] ] |}.

(** Ids X, Y, Z, W with industries "REIT - Office", "REIT", "Retail", null. *)
Definition example_industries : CsvFile :=
  {| header := example_header;
     records :=
       [ [Some "X"; NaN; NaN; NaN; Some "REIT - Office"; NaN];
         [Some "Y"; NaN; NaN; NaN; Some "REIT"; NaN];
         [Some "Z"; NaN; NaN; NaN; Some "Retail"; NaN];
         [Some "W"; NaN; NaN; NaN; NaN; NaN] ] |}.

(** Ids P, Q, R with categories "ADR Preferred", "Domestic", "ADR". *)
Definition example_categories : CsvFile :=
  {| header := example_header;
     records :=
       [ [Some "P"; NaN; NaN; NaN; NaN; Some "ADR Preferred"];
         [Some "Q"; NaN; NaN; NaN; NaN; Some "Domestic"];
         [Some "R"; NaN; NaN; NaN; NaN; Some "ADR"] ] |}.


(** A financial, a REIT, an ADR, and a record whose sector, industry
    and category are all missing. *)
Definition example_nulls : CsvFile :=
  {| header := example_header;
     records :=
       [ [Some "A"; NaN; NaN; Some "Financial Services"; Some "Banks"; Some "Domestic"];
         [Some "B"; NaN; NaN; Some "Real Estate"; Some "REIT - Office"; Some "Domestic"];
         [Some "C"; NaN; NaN; Some "Energy"; Some "Oil"; Some "ADR"];
         [Some "D"; NaN; NaN; NaN; NaN; NaN] ] |}.



(** One row that is both a financial and a REIT. *)
Definition example_overlap : CsvFile :=
  {| header := example_header;
     records :=
       [ [Some "M"; NaN; NaN; Some "Financial Services"; Some "REIT - Mortgage"; NaN];
         [Some "N"; NaN; NaN; Some "Energy"; Some "Oil"; NaN] ] |}.


(** The sectors of [example_sectors] under other identifiers, names
    and industries. *)
Definition example_sectors_other : CsvFile :=
  {| header := example_header;
     records :=
       [ [Some "K"; Some "KKK"; Some "Kay Bank"; Some "Financial Services";
          Some "Banks"; Some "Domestic"];
         [Some "L"; Some "LLL"; Some "Ell Oil"; Some "Energy"; Some "Oil"; Some "ADR"];
         [Some "O"; NaN; NaN; NaN; Some "REIT"; NaN] ] |}.

(** ** Helper lemmas: strings *)

Lemma append_cons (a : ascii) (s t : string) :
  String a s +:+ t = String a (s +:+ t).
Proof. reflexivity. Qed.

Lemma prefix_spec (pat s : string) :
  String.prefix pat s = true ↔ prefix_of pat s.
Proof.
  unfold prefix_of. revert s.
  induction pat as [|a pat IH]; intros s.
  - split; [intros _; by exists s | by destruct s].
  - destruct s as [|b s]; simpl.
    + split; [done | intros [t Ht]; discriminate].
    + destruct (ascii_dec a b) as [->|Hne].
      * rewrite IH. split; intros [t Ht]; exists t;
          rewrite append_cons in *; congruence.
      * split; [done | intros [t Ht]; rewrite append_cons in Ht; congruence].
Qed.

Lemma contains_spec (pat s : string) :
  Str.contains pat s = true ↔ substring_of pat s.
Proof.
  unfold substring_of.
  induction s as [|b s IH]; cbn [Str.contains].
  - rewrite orb_false_r, prefix_spec. split.
    + intros [t Ht]. by exists "", t.
    + intros (l & t & Ht). destruct l; [by exists t | discriminate].
  - rewrite orb_true_iff, prefix_spec, IH. split.
    + intros [[t Ht] | (l & t & Ht)].
      * by exists "", t.
      * exists (String b l), t. by rewrite append_cons, Ht.
    + intros (l & t & Ht). destruct l as [|c l].
      * left. by exists t.
      * right. exists l, t. rewrite append_cons in Ht. congruence.
Qed.

(** ** Helper lemmas: columns and records *)

Lemma get_loc_cons (name c : string) (cols : list string) :
  get_loc name (c :: cols) =
  if decide (c = name) then Some 0 else S <$> get_loc name cols.
Proof.
  unfold get_loc. cbn [list_find]. case_decide; [done|].
  destruct (list_find _ cols) as [[j x]|]; done.
Qed.

Lemma get_loc_Some (name : string) (cols : list string) (j : nat) :
  get_loc name cols = Some j → cols !! j = Some name.
Proof.
  revert j. induction cols as [|c cols IH]; intros j; [done|].
  rewrite get_loc_cons. case_decide as Hc.
  - intros [= <-]. by rewrite Hc.
  - destruct (get_loc name cols) as [k|]; [|done].
    intros [= <-]. by apply IH.
Qed.

Lemma get_loc_None (name : string) (cols : list string) :
  get_loc name cols = None ↔ name ∉ cols.
Proof.
  induction cols as [|c cols IH].
  - split; [intros _; apply not_elem_of_nil | done].
  - rewrite get_loc_cons, not_elem_of_cons. case_decide as Hc.
    + split; [done | intros [Hne _]; congruence].
    + destruct (get_loc name cols) as [k|]; simpl.
      * split; [done | intros [_ Hn]; by apply IH in Hn].
      * split; [intros _; split; [congruence | by apply IH] | done].
Qed.

Lemma get_loc_is_Some (name : string) (cols : list string) :
  name ∈ cols → is_Some (get_loc name cols).
Proof.
  intros Hin. destruct (get_loc name cols) eqn:E; [by eexists|].
  by apply get_loc_None in E.
Qed.

Lemma field_fit (n j : nat) (r : list cell) :
  j < n → field j (fit n r) = field j r.
Proof.
  intros Hj. unfold field, fit.
  rewrite lookup_take_lt by done.
  destruct (decide (j < length r)) as [Hlt|Hge].
  - by rewrite lookup_app_l.
  - rewrite lookup_app_r by lia.
    rewrite (lookup_ge_None_2 r) by lia.
    destruct (replicate _ _ !! _) eqn:E; [|done].
    apply lookup_replicate in E as [-> _]. done.
Qed.

Lemma at_col_present (df : DataFrame) (name : string) (j : nat) (r : nat * list cell) :
  get_loc name (columns df) = Some j → at_col df name r = field j r.2.
Proof. unfold at_col. by intros ->. Qed.

Lemma at_col_absent (df : DataFrame) (name : string) (r : nat * list cell) :
  name ∉ columns df → at_col df name r = NaN.
Proof. intros H. apply get_loc_None in H. unfold at_col. by rewrite H. Qed.

(** ** Helper lemmas: boolean masks *)

Lemma mask_rows {A : Type} (g : A → bool) (l : list A) :
  fst <$> filter (λ p, p.2 = Some true) (zip l ((λ r, Some (g r)) <$> l)) =
  filter (λ r, g r = true) l.
Proof.
  induction l as [|r l IH]; [done|].
  cbn [fmap list_fmap zip zip_with]. rewrite !filter_cons. simpl.
  destruct (g r) eqn:Hg.
  - rewrite decide_True by done. rewrite decide_True by done.
    rewrite fmap_cons. simpl. f_equal. exact IH.
  - rewrite decide_False by (intros [=]). rewrite decide_False by done.
    exact IH.
Qed.

Lemma getitem_mask_total (df : DataFrame) (g : nat * list cell → bool) :
  getitem_mask df ((λ r, Some (g r)) <$> rows df) =
  inr {| columns := columns df; rows := filter (λ r, g r = true) (rows df) |}.
Proof.
  unfold getitem_mask.
  rewrite decide_True by apply length_fmap.
  rewrite decide_True.
  - by rewrite mask_rows.
  - apply Forall_fmap, Forall_true. intros r. by eexists.
Qed.

(** The three cell tests the masks compute. *)
Lemma eq_lit_fmap (df : DataFrame) (j : nat) (lit : string) :
  eq_lit ((λ r, field j r.2) <$> rows df) lit =
  (λ r, Some (match field j r.2 with
               | Some t => String.eqb t lit
               | None => false
               end)) <$> rows df.
Proof. unfold eq_lit. by rewrite <- list_fmap_compose. Qed.

Lemma str_contains_fmap (df : DataFrame) (j : nat) (pat : string) :
  str_contains (fillna ((λ r, field j r.2) <$> rows df) "") pat =
  (λ r, Some (Str.contains pat (as_empty (field j r.2)))) <$> rows df.
Proof. unfold str_contains, fillna. by rewrite <- !list_fmap_compose. Qed.

Lemma str_startswith_fmap (df : DataFrame) (j : nat) (pat : string) :
  str_startswith (fillna ((λ r, field j r.2) <$> rows df) "") pat =
  (λ r, Some (Str.startswith pat (as_empty (field j r.2)))) <$> rows df.
Proof. unfold str_startswith, fillna. by rewrite <- !list_fmap_compose. Qed.

(** ** Helper lemmas: the three filters *)

Lemma financials_spec (df : DataFrame) :
  financials df =
  match get_loc "sharadar_Sector" (columns df) with
  | Some _ =>
      inr {| columns := columns df;
             rows := filter (λ r, at_col df "sharadar_Sector" r = Some "Financial Services")
                            (rows df) |}
  | None => inl (AttributeError "sharadar_Sector")
  end.
Proof.
  unfold financials, getattr.
  destruct (get_loc _ _) as [j|] eqn:Hj; [|done].
  cbn [mbind exn_bind]. rewrite eq_lit_fmap, getitem_mask_total.
  do 2 f_equal. apply list_filter_iff. intros r.
  rewrite (at_col_present _ _ j) by done.
  destruct (field j r.2) as [t|]; [|done].
  rewrite String.eqb_eq. split; congruence.
Qed.

Lemma reits_spec (df : DataFrame) :
  reits df =
  match get_loc "sharadar_Industry" (columns df) with
  | Some _ =>
      inr {| columns := columns df;
             rows := filter (λ r, Str.contains "REIT" (as_empty (at_col df "sharadar_Industry" r)) = true)
                            (rows df) |}
  | None => inl (AttributeError "sharadar_Industry")
  end.
Proof.
  unfold reits, getattr.
  destruct (get_loc _ _) as [j|] eqn:Hj; [|done].
  cbn [mbind exn_bind]. rewrite str_contains_fmap, getitem_mask_total.
  do 2 f_equal. apply list_filter_iff. intros r.
  by rewrite (at_col_present _ _ j).
Qed.

Lemma adrs_spec (df : DataFrame) :
  adrs df =
  match get_loc "sharadar_Category" (columns df) with
  | Some _ =>
      inr {| columns := columns df;
             rows := filter (λ r, Str.startswith "ADR" (as_empty (at_col df "sharadar_Category" r)) = true)
                            (rows df) |}
  | None => inl (AttributeError "sharadar_Category")
  end.
Proof.
  unfold adrs, getattr.
  destruct (get_loc _ _) as [j|] eqn:Hj; [|done].
  cbn [mbind exn_bind]. rewrite str_startswith_fmap, getitem_mask_total.
  do 2 f_equal. apply list_filter_iff. intros r.
  by rewrite (at_col_present _ _ j).
Qed.

(** ** Helper lemmas: running the cells *)

Lemma run_bind {A B : Type} (m : Py A) (k : A → Py B) (e : Env) :
  (m ≫= k) e =
  match m e with
  | Done a e' => k a e'
  | Raised x e' => Raised x e'
  end.
Proof. reflexivity. Qed.

Lemma open_read_stored (path name : string) (f : CsvFile) (e : Env) :
  open_read path (stored path name f e) = Done f (stored path name f e).
Proof. unfold open_read, stored. cbn [files]. by rewrite lookup_insert_eq. Qed.

Lemma write_then_publish (path name : string) (f : CsvFile) (e : Env) :
  ∃ c, (open_write path f;; create_universe name path) e = Done c (stored path name f e).
Proof.
  eexists. rewrite run_bind. unfold open_write, create_universe.
  rewrite run_bind. unfold open_read. cbn [files].
  rewrite lookup_insert_eq. unfold publish, stored. cbn [files universes].
  reflexivity.
Qed.

Lemma getattr_financials (df : DataFrame) :
  match getattr df "sharadar_Sector" with
  | inl x => financials df = inl x
  | inr _ => ∃ F, financials df = inr F
  end.
Proof.
  rewrite financials_spec. unfold getattr.
  destruct (get_loc _ _); [by eexists | done].
Qed.

Lemma getattr_adrs (df : DataFrame) :
  match getattr df "sharadar_Category" with
  | inl x => adrs df = inl x
  | inr _ => ∃ A, adrs df = inr A
  end.
Proof.
  rewrite adrs_spec. unfold getattr.
  destruct (get_loc _ _); [by eexists | done].
Qed.

Lemma notebook_run (master : CsvFile) (e : Env) :
  notebook master e = run_of master e.
Proof.
  unfold notebook, run_of.
  (* cells 1 and 2 *)
  rewrite run_bind. unfold cell_1, download_master_file, open_write.
  rewrite run_bind. unfold cell_2, create_universe.
  rewrite run_bind. unfold open_read at 1. cbn [files].
  rewrite lookup_insert_eq. unfold publish at 1. cbn [files universes].
  change (mkEnv _ _) with (after_all master e).
  (* cell 3 *)
  rewrite run_bind. unfold cell_3. rewrite run_bind.
  unfold after_all at 1. rewrite open_read_stored. fold (after_all master e).
  rewrite run_bind. unfold eval at 1.
  destruct (pd_read_csv master) as [x|df]; [done|].
  rewrite run_bind. unfold eval at 1.
  pose proof (getattr_financials df) as HF.
  destruct (getattr df "sharadar_Sector") as [x|s]; [by rewrite HF|].
  destruct HF as [F HF]. rewrite HF. cbn [mret Py_ret].
  (* cell 4 *)
  rewrite run_bind. unfold cell_4. rewrite run_bind. rewrite HF. unfold eval at 1.
  unfold df_to_csv.
  destruct (write_then_publish "sharadar_nyse_financials.csv" "nyse-financials"
              (to_csv F) (after_all master e)) as [c4 ->].
  fold (after_financials master F e).
  (* cell 5 *)
  rewrite run_bind. unfold cell_5. rewrite run_bind. unfold eval at 1.
  destruct (reits df) as [x|R]; [done|].
  unfold df_to_csv.
  destruct (write_then_publish "sharadar_nyse_reits.csv" "nyse-reits"
              (to_csv R) (after_financials master F e)) as [c5 ->].
  fold (after_reits master F R e).
  (* cell 6 *)
  rewrite run_bind. unfold cell_6. rewrite run_bind. unfold eval at 1.
  pose proof (getattr_adrs df) as HA.
  destruct (getattr df "sharadar_Category") as [x|s']; [by rewrite HA|].
  destruct HA as [A HA]. rewrite HA. cbn [mret Py_ret].
  (* cell 8 *)
  rewrite run_bind. unfold cell_8. rewrite run_bind. rewrite HA. unfold eval at 1.
  rewrite run_bind. unfold eval at 1.
  destruct (getitem_cols A _) as [x|sel]; [done|]. cbn [mret Py_ret].
  (* cell 9 *)
  rewrite run_bind. unfold cell_9. rewrite run_bind. rewrite HA. unfold eval at 1.
  unfold df_to_csv.
  destruct (write_then_publish "sharadar_nyse_adrs.csv" "nyse-adrs"
              (to_csv A) (after_reits master F R e)) as [c9 ->].
  reflexivity.
Qed.

(** ** Helper lemmas: identifiers and universes *)

Lemma omap_fmap_comp {A B C : Type} (f : B → option C) (g : A → B) (l : list A) :
  omap f (g <$> l) = omap (λ a, f (g a)) l.
Proof.
  induction l as [|a l IH]; [done|].
  cbn [fmap list_fmap omap list_omap]. fold (g <$> l). fold (omap f (g <$> l)).
  by rewrite IH.
Qed.

Lemma omap_agree {A B : Type} (f g : A → option B) (l : list A) :
  (∀ a, a ∈ l → f a = g a) → omap f l = omap g l.
Proof.
  induction l as [|a l IH]; intros H; [done|].
  cbn [omap list_omap]. rewrite (H a) by apply list_elem_of_here.
  fold (omap f l). fold (omap g l). rewrite IH; [done|].
  intros b Hb. apply H. by apply list_elem_of_further.
Qed.

Lemma omap_none {A B : Type} (l : list A) :
  omap (λ _ : A, @None B) l = [].
Proof. induction l as [|a l IH]; [done|]. exact IH. Qed.


Lemma na_filter_idem (c : cell) : na_filter (na_filter c) = na_filter c.
Proof.
  destruct c as [t|]; [|done]. cbn [na_filter].
  case_decide as Hin; [done|]. cbn [na_filter]. by rewrite decide_False.
Qed.

Lemma field_na_filter (j : nat) (r : list cell) :
  field j (na_filter <$> r) = na_filter (field j r).
Proof. unfold field. rewrite list_lookup_fmap. by destruct (r !! j). Qed.

Lemma field_blank (j : nat) (r : list cell) : blank r → field j r = NaN.
Proof. intros [-> | ->]; [done|]. by destruct j as [|[|j]]. Qed.

Lemma omap_filter_none {A B : Type} (g : A → option B)
    (P : A → Prop) `{!∀ a, Decision (P a)} (l : list A) :
  (∀ a, ¬ P a → g a = None) → omap g (filter P l) = omap g l.
Proof.
  intros Hg. induction l as [|a l IH]; [done|].
  rewrite filter_cons. cbn [omap list_omap]. fold (omap g l).
  case_decide as HP.
  - cbn [omap list_omap]. fold (omap g (filter P l)). by rewrite IH.
  - by rewrite IH, (Hg a).
Qed.

Lemma sids_to_csv (df : DataFrame) :
  sids (to_csv df) = omap (λ r, na_filter (row_id df r)) (rows df).
Proof.
  unfold sids, to_csv, row_id, at_col. cbn [header records].
  rewrite get_loc_cons. rewrite decide_False by done.
  destruct (get_loc identifier (columns df)) as [j|]; cbn [fmap option_fmap option_map].
  - by rewrite omap_fmap_comp.
  - symmetry. apply (omap_none (B := string)).
Qed.

Lemma snd_rows_read_csv (master : CsvFile) :
  (rows (read_csv master)).*2 =
  (λ r, na_filter <$> fit (length (header master)) r)
    <$> filter (λ r, ¬ blank r) (records master).
Proof. unfold read_csv. cbn [rows]. rewrite fmap_imap. apply imap_const. Qed.

Lemma row_of_read_csv (master : CsvFile) (r : nat * list cell) :
  r ∈ rows (read_csv master) →
  ∃ raw, raw ∈ records master ∧ ¬ blank raw ∧
         r.2 = na_filter <$> fit (length (header master)) raw.
Proof.
  intros Hin. assert (r.2 ∈ (rows (read_csv master)).*2) as H2
    by (apply list_elem_of_fmap; by exists r).
  rewrite snd_rows_read_csv in H2. apply list_elem_of_fmap in H2 as (raw & Hr & Hraw).
  apply list_elem_of_filter in Hraw as [Hnb Hraw]. by exists raw.
Qed.

Lemma at_col_clean (master : CsvFile) (name : string) (r : nat * list cell) :
  r ∈ rows (read_csv master) →
  na_filter (at_col (read_csv master) name r) = at_col (read_csv master) name r.
Proof.
  intros Hin. apply row_of_read_csv in Hin as (raw & _ & _ & Hr).
  unfold at_col. destruct (get_loc _ _) as [j|]; [|done].
  by rewrite Hr, field_na_filter, na_filter_idem.
Qed.

Lemma sids_master (master : CsvFile) :
  sids master = omap (row_id (read_csv master)) (rows (read_csv master)).
Proof.
  unfold sids, row_id, at_col. change (columns (read_csv master)) with (header master).
  destruct (get_loc identifier (header master)) as [j|] eqn:Hj.
  - rewrite <- (omap_fmap_comp (field j) snd), snd_rows_read_csv, omap_fmap_comp.
    rewrite <- (omap_filter_none (λ r, na_filter (field j r)) (λ r, ¬ blank r)).
    + apply omap_agree. intros r _. rewrite field_na_filter, field_fit; [done|].
      apply get_loc_Some in Hj. by apply lookup_lt_Some in Hj.
    + intros r Hb. apply dec_stable in Hb. by rewrite field_blank.
  - symmetry. apply (omap_none (B := string)).
Qed.

Lemma elem_of_universe_of (df : DataFrame) (x : string) :
  x ∈ universe_of df ↔ ∃ r, r ∈ rows df ∧ na_filter (row_id df r) = Some x.
Proof.
  unfold universe_of, members. rewrite elem_of_list_to_set, sids_to_csv.
  apply list_elem_of_omap.
Qed.

Lemma elem_of_members (master : CsvFile) (x : string) :
  x ∈ members master ↔
  ∃ r, r ∈ rows (read_csv master) ∧ row_id (read_csv master) r = Some x.
Proof.
  unfold members. rewrite elem_of_list_to_set, sids_master.
  apply list_elem_of_omap.
Qed.

(** ** Helper lemmas: the filtered frames and the run *)

Lemma financials_rows (df F : DataFrame) :
  financials df = inr F →
  columns F = columns df ∧
  rows F = filter (λ r, sector df r = Some "Financial Services") (rows df).
Proof.
  rewrite financials_spec. destruct (get_loc _ _); [|done].
  by intros [= <-].
Qed.

Lemma reits_rows (df R : DataFrame) :
  reits df = inr R →
  columns R = columns df ∧
  rows R = filter (λ r, Str.contains "REIT" (as_empty (industry df r)) = true) (rows df).
Proof.
  rewrite reits_spec. destruct (get_loc _ _); [|done].
  by intros [= <-].
Qed.

Lemma adrs_rows (df A : DataFrame) :
  adrs df = inr A →
  columns A = columns df ∧
  rows A = filter (λ r, Str.startswith "ADR" (as_empty (category df r)) = true) (rows df).
Proof.
  rewrite adrs_spec. destruct (get_loc _ _); [|done].
  by intros [= <-].
Qed.

Lemma pd_read_csv_inr (master : CsvFile) (df : DataFrame) :
  pd_read_csv master = inr df → rectangular master ∧ df = read_csv master.
Proof. unfold pd_read_csv. case_decide; [|done]. by intros [= <-]. Qed.

Lemma pd_read_csv_inl (master : CsvFile) (x : exn) :
  pd_read_csv master = inl x →
  ¬ rectangular master ∧ x = ParserError "Error tokenizing data".
Proof. unfold pd_read_csv. case_decide; [done|]. by intros [= <-]. Qed.


Lemma notebook_Done_inv (master : CsvFile) (e e' : Env) :
  notebook master e = Done tt e' →
  ∃ F R A,
    financials (read_csv master) = inr F ∧
    reits (read_csv master) = inr R ∧
    adrs (read_csv master) = inr A ∧
    e' = after_run master F R A e.
Proof.
  rewrite notebook_run. unfold run_of.
  destruct (pd_read_csv master) as [?|df] eqn:Hp; [done|].
  apply pd_read_csv_inr in Hp as [_ ->].
  destruct (financials _) as [?|F]; [done|].
  destruct (reits _) as [?|R]; [done|].
  destruct (adrs _) as [?|A]; [done|].
  destruct (getitem_cols _ _); [done|].
  intros [= <-]. by exists F, R, A.
Qed.

Lemma universes_after_run (master : CsvFile) (F R A : DataFrame) (e : Env) :
  universes (after_run master F R A e) !! "nyse-stk" = Some (members master) ∧
  universes (after_run master F R A e) !! "nyse-financials" = Some (universe_of F) ∧
  universes (after_run master F R A e) !! "nyse-reits" = Some (universe_of R) ∧
  universes (after_run master F R A e) !! "nyse-adrs" = Some (universe_of A).
Proof.
  unfold after_run, after_reits, after_financials, after_all, stored.
  cbn [universes]. repeat split.
  - rewrite !lookup_insert_ne by done. apply lookup_insert_eq.
  - rewrite !lookup_insert_ne by done. apply lookup_insert_eq.
  - rewrite lookup_insert_ne by done. apply lookup_insert_eq.
  - apply lookup_insert_eq.
Qed.

Lemma files_after_run (master : CsvFile) (F R A : DataFrame) (e : Env) :
  files (after_run master F R A e) !! "sharadar_nyse_securities.csv" = Some master ∧
  files (after_run master F R A e) !! "sharadar_nyse_financials.csv" = Some (to_csv F) ∧
  files (after_run master F R A e) !! "sharadar_nyse_reits.csv" = Some (to_csv R) ∧
  files (after_run master F R A e) !! "sharadar_nyse_adrs.csv" = Some (to_csv A).
Proof.
  unfold after_run, after_reits, after_financials, after_all, stored.
  cbn [files]. repeat split.
  - rewrite !lookup_insert_ne by done. apply lookup_insert_eq.
  - rewrite !lookup_insert_ne by done. apply lookup_insert_eq.
  - rewrite lookup_insert_ne by done. apply lookup_insert_eq.
  - apply lookup_insert_eq.
Qed.

(** The identifiers read back from a written part of the loaded table
    are those its rows hold. *)
Lemma elem_of_universe_of_loaded (master : CsvFile) (out : DataFrame) (x : string) :
  columns out = columns (read_csv master) →
  rows out ⊆ rows (read_csv master) →
  x ∈ universe_of out ↔ ∃ r, r ∈ rows out ∧ row_id (read_csv master) r = Some x.
Proof.
  intros Hc Hr. rewrite elem_of_universe_of.
  assert (∀ r, r ∈ rows out →
               na_filter (row_id out r) = row_id (read_csv master) r) as Hid.
  { intros r Hin. unfold row_id, at_col. rewrite Hc.
    apply (at_col_clean master identifier). by apply Hr. }
  split; intros (r & Hin & Hx); exists r; (split; [done|]).
  - by rewrite <- Hid.
  - by rewrite Hid.
Qed.

(** A frame cut out of the loaded table publishes a part of the base
    universe. *)
Lemma universe_of_selection (master : CsvFile) (out : DataFrame) :
  columns out = columns (read_csv master) →
  rows out ⊆ rows (read_csv master) →
  universe_of out ⊆ members master.
Proof.
  intros Hc Hr x. rewrite (elem_of_universe_of_loaded master) by done.
  rewrite elem_of_members.
  intros (r & Hin & Hid). exists r. split; [by apply Hr | done].
Qed.

Lemma filter_subseteq {A : Type} (P : A → Prop) `{!∀ x, Decision (P x)} (l : list A) :
  filter P l ⊆ l.
Proof. intros x. rewrite list_elem_of_filter. by intros [_ ?]. Qed.

Lemma NoDup_labels (master : CsvFile) :
  NoDup (rows (read_csv master)).*1.
Proof.
  unfold read_csv. cbn [rows]. rewrite fmap_imap.
  rewrite (imap_ext _ (λ i _, id i)) by done.
  rewrite imap_seq_0, list_fmap_id.
  apply NoDup_seq.
Qed.

(** ** The claims *)

Lemma NoDup_omap_eq {A B : Type} (f : A → option B) (l : list A) (a b : A) (x : B) :
  NoDup (omap f l) → a ∈ l → b ∈ l → f a = Some x → f b = Some x → a = b.
Proof.
  induction l as [|c l IH]; intros Hnd Ha Hb Hfa Hfb.
  - by apply elem_of_nil in Ha.
  - cbn [omap list_omap] in Hnd. fold (omap f l) in Hnd.
    apply elem_of_cons in Ha as [->|Ha]; apply elem_of_cons in Hb as [->|Hb].
    + done.
    + rewrite Hfa in Hnd. apply NoDup_cons in Hnd as [Hx _].
      exfalso. apply Hx. apply list_elem_of_omap. by exists b.
    + rewrite Hfb in Hnd. apply NoDup_cons in Hnd as [Hx _].
      exfalso. apply Hx. apply list_elem_of_omap. by exists a.
    + destruct (f c); [apply NoDup_cons in Hnd as [_ Hnd]|]; by apply IH.
Qed.

(** Under a unique key, the identifier of a row that fails the test of
    a selection is not in the universe the selection publishes. *)
Lemma id_not_in_selection (master : CsvFile) (out : DataFrame)
    (P : nat * list cell → Prop) `{!∀ r, Decision (P r)}
    (r : nat * list cell) (x : string) :
  columns out = columns (read_csv master) →
  rows out = filter P (rows (read_csv master)) →
  unique_key master →
  r ∈ rows (read_csv master) →
  ¬ P r →
  row_id (read_csv master) r = Some x →
  x ∉ universe_of out.
Proof.
  intros Hc Hr Hkey Hin HnP Hid.
  rewrite (elem_of_universe_of_loaded master)
    by (done || (rewrite Hr; apply filter_subseteq)).
  intros (r' & Hin' & Hid').
  rewrite Hr in Hin'. apply list_elem_of_filter in Hin' as [HP Hin'].
  unfold unique_key in Hkey. rewrite sids_master in Hkey.
  assert (r = r') as -> by eauto using NoDup_omap_eq.
  done.
Qed.

(** C1. A row whose sector, industry or category is null is not among
    the rows of the financials, reits or adrs selection respectively,
    and, identifiers being a unique key, its identifier is not in the
    universe published from that selection.  The industry and category
    masks replace the null by the empty string before the string test;
    the sector comparison gives the same mask with or without that
    replacement.  On the example with a record whose three fields are
    all missing the run goes through and publishes that record in the
    base universe only. *)
Theorem null_never_member (master : CsvFile) (r : nat * list cell) :
  r ∈ rows (read_csv master) →
  (∀ F, financials (read_csv master) = inr F →
        sector (read_csv master) r = NaN →
        (r ∉ rows F) ∧
        (unique_key master → ∀ x, row_id (read_csv master) r = Some x → x ∉ universe_of F)) ∧
  (∀ R, reits (read_csv master) = inr R →
        industry (read_csv master) r = NaN →
        (r ∉ rows R) ∧
        (unique_key master → ∀ x, row_id (read_csv master) r = Some x → x ∉ universe_of R)) ∧
  (∀ A, adrs (read_csv master) = inr A →
        category (read_csv master) r = NaN →
        (r ∉ rows A) ∧
        (unique_key master → ∀ x, row_id (read_csv master) r = Some x → x ∉ universe_of A)) ∧
  (∀ s, eq_lit s "Financial Services" = eq_lit (fillna s "") "Financial Services") ∧
  (∃ e', notebook example_nulls e0 = Done tt e' ∧
         universes e' !! "nyse-stk" = Some {["A"; "B"; "C"; "D"]} ∧
         universes e' !! "nyse-financials" = Some {["A"]} ∧
         universes e' !! "nyse-reits" = Some {["B"]} ∧
         universes e' !! "nyse-adrs" = Some {["C"]}).
Proof.
  intros Hin. split; [|split; [|split; [|split]]].
  - intros F HF Hnull. apply financials_rows in HF as [Hc Hr].
    assert (¬ sector (read_csv master) r = Some "Financial Services") as Hno
      by (rewrite Hnull; discriminate).
    split.
    + rewrite Hr, list_elem_of_filter. by intros [Hs _].
    + intros Hkey x Hid. eapply id_not_in_selection; eauto.
  - intros R HR Hnull. apply reits_rows in HR as [Hc Hr].
    assert (¬ Str.contains "REIT" (as_empty (industry (read_csv master) r)) = true) as Hno
      by (rewrite Hnull; discriminate).
    split.
    + rewrite Hr, list_elem_of_filter. by intros [Hs _].
    + intros Hkey x Hid. eapply id_not_in_selection; eauto.
  - intros A HA Hnull. apply adrs_rows in HA as [Hc Hr].
    assert (¬ Str.startswith "ADR" (as_empty (category (read_csv master) r)) = true) as Hno
      by (rewrite Hnull; discriminate).
    split.
    + rewrite Hr, list_elem_of_filter. by intros [Hs _].
    + intros Hkey x Hid. eapply id_not_in_selection; eauto.
  - intros s. unfold eq_lit, fillna. rewrite <- list_fmap_compose.
    apply list_fmap_ext. intros _ [t|] _; done.
  - exists (env_of (notebook example_nulls e0)).
    split; [by vm_compute|]. repeat split; by vm_compute.
Qed.

Lemma null_never_member_witness :
  (3, [Some "D"; NaN; NaN; NaN; NaN; NaN]) ∈ rows (read_csv example_nulls) ∧
  financials (read_csv example_nulls) =
    inr {| columns := example_header;
           rows := [(0, [Some "A"; NaN; NaN; Some "Financial Services";
                         Some "Banks"; Some "Domestic"])] |} ∧
  reits (read_csv example_nulls) =
    inr {| columns := example_header;
           rows := [(1, [Some "B"; NaN; NaN; Some "Real Estate";
                         Some "REIT - Office"; Some "Domestic"])] |} ∧
  adrs (read_csv example_nulls) =
    inr {| columns := example_header;
           rows := [(2, [Some "C"; NaN; NaN; Some "Energy"; Some "Oil"; Some "ADR"])] |} ∧
  ((3, [Some "D"; NaN; NaN; NaN; NaN; NaN]) ∉
     [(0, [Some "A"; NaN; NaN; Some "Financial Services"; Some "Banks"; Some "Domestic"])]) ∧
  ((3, [Some "D"; NaN; NaN; NaN; NaN; NaN]) ∉
     [(1, [Some "B"; NaN; NaN; Some "Real Estate"; Some "REIT - Office"; Some "Domestic"])]) ∧
  ((3, [Some "D"; NaN; NaN; NaN; NaN; NaN]) ∉
     [(2, [Some "C"; NaN; NaN; Some "Energy"; Some "Oil"; Some "ADR"])]).
Proof.
  assert ((3, [Some "D"; NaN; NaN; NaN; NaN; NaN]) ∈ rows (read_csv example_nulls)) as Hin.
  { apply (bool_decide_unpack _). vm_compute. exact I. }
  assert (financials (read_csv example_nulls) =
    inr {| columns := example_header;
           rows := [(0, [Some "A"; NaN; NaN; Some "Financial Services";
                         Some "Banks"; Some "Domestic"])] |}) as HF
    by (vm_compute; reflexivity).
  assert (reits (read_csv example_nulls) =
    inr {| columns := example_header;
           rows := [(1, [Some "B"; NaN; NaN; Some "Real Estate";
                         Some "REIT - Office"; Some "Domestic"])] |}) as HR
    by (vm_compute; reflexivity).
  assert (adrs (read_csv example_nulls) =
    inr {| columns := example_header;
           rows := [(2, [Some "C"; NaN; NaN; Some "Energy"; Some "Oil"; Some "ADR"])] |}) as HA
    by (vm_compute; reflexivity).
  destruct (null_never_member example_nulls _ Hin) as (Hfin & Hreit & Hadr & _).
  split; [exact Hin|]. split; [exact HF|]. split; [exact HR|]. split; [exact HA|].
  split; [|split].
  - exact (proj1 (Hfin _ HF eq_refl)).
  - exact (proj1 (Hreit _ HR eq_refl)).
  - exact (proj1 (Hadr _ HA eq_refl)).
Defined.

Lemma elem_of_universe_selection (master : CsvFile) (out : DataFrame)
    (P : nat * list cell → Prop) `{!∀ r, Decision (P r)} (x : string) :
  columns out = columns (read_csv master) →
  rows out = filter P (rows (read_csv master)) →
  x ∈ universe_of out ↔
  ∃ r, r ∈ rows (read_csv master) ∧ P r ∧ row_id (read_csv master) r = Some x.
Proof.
  intros Hc Hr.
  rewrite (elem_of_universe_of_loaded master)
    by (done || (rewrite Hr; apply filter_subseteq)).
  rewrite Hr.
  split.
  - intros (r & Hin & Hid). apply list_elem_of_filter in Hin as [HP Hin]. by exists r.
  - intros (r & Hin & HP & Hid). exists r. by rewrite list_elem_of_filter.
Qed.

(** C2. The financials selection holds exactly the rows of the table
    whose sector is the literal "Financial Services", and the universe
    published from it exactly their identifiers; a complete run
    publishes that universe as nyse-financials.  On the rows A, B, C
    with sectors "Financial Services", "Energy", null the run publishes
    {A} (and {A, B, C} as the base universe). *)
Theorem financials_exact (master : CsvFile) (F : DataFrame) :
  financials (read_csv master) = inr F →
  (∀ r, r ∈ rows F ↔
        r ∈ rows (read_csv master) ∧
        sector (read_csv master) r = Some "Financial Services") ∧
  (∀ x, x ∈ universe_of F ↔
        ∃ r, r ∈ rows (read_csv master) ∧
             sector (read_csv master) r = Some "Financial Services" ∧
             row_id (read_csv master) r = Some x) ∧
  (∀ e e', notebook master e = Done tt e' →
           universes e' !! "nyse-financials" = Some (universe_of F)) ∧
  (∃ e', notebook example_sectors e0 = Done tt e' ∧
         universes e' !! "nyse-financials" = Some {["A"]} ∧
         universes e' !! "nyse-stk" = Some {["A"; "B"; "C"]}).
Proof.
  intros HF. pose proof (financials_rows _ _ HF) as [Hc Hr].
  split; [|split; [|split]].
  - intros r. rewrite Hr, list_elem_of_filter. tauto.
  - intros x.
    by apply (elem_of_universe_selection _ _
                (λ r, sector (read_csv master) r = Some "Financial Services")).
  - intros e e' Hrun. apply notebook_Done_inv in Hrun as (F' & R & A & HF' & _ & _ & ->).
    rewrite HF in HF'. injection HF' as <-.
    apply universes_after_run.
  - exists (env_of (notebook example_sectors e0)).
    split; [by vm_compute|]. split; by vm_compute.
Qed.

Lemma financials_exact_witness :
  financials (read_csv example_sectors) =
    inr {| columns := example_header;
           rows := [(0, [Some "A"; NaN; NaN; Some "Financial Services"; NaN; NaN])] |} ∧
  ∀ x, x ∈ universe_of
             {| columns := example_header;
                rows := [(0, [Some "A"; NaN; NaN; Some "Financial Services"; NaN; NaN])] |} ↔
       ∃ r, r ∈ rows (read_csv example_sectors) ∧
            sector (read_csv example_sectors) r = Some "Financial Services" ∧
            row_id (read_csv example_sectors) r = Some x.
Proof.
  assert (financials (read_csv example_sectors) =
            inr {| columns := example_header;
                   rows := [(0, [Some "A"; NaN; NaN; Some "Financial Services"; NaN; NaN])] |})
    as HF by (vm_compute; reflexivity).
  split; [exact HF|].
  exact (proj1 (proj2 (financials_exact example_sectors _ HF))).
Defined.

(** C3. The reits selection holds exactly the rows of the table whose
    industry, a null read as the empty string, contains "REIT" at some
    position, letter case as written; the universe published from it
    holds exactly their identifiers, and a complete run publishes it as
    nyse-reits.  On the ids X, Y, Z, W with industries "REIT - Office",
    "REIT", "Retail", null the run publishes {X, Y}. *)
Theorem reits_exact (master : CsvFile) (R : DataFrame) :
  reits (read_csv master) = inr R →
  (∀ r, r ∈ rows R ↔
        r ∈ rows (read_csv master) ∧
        substring_of "REIT" (as_empty (industry (read_csv master) r))) ∧
  (∀ x, x ∈ universe_of R ↔
        ∃ r, r ∈ rows (read_csv master) ∧
             substring_of "REIT" (as_empty (industry (read_csv master) r)) ∧
             row_id (read_csv master) r = Some x) ∧
  (∀ e e', notebook master e = Done tt e' →
           universes e' !! "nyse-reits" = Some (universe_of R)) ∧
  (∃ e', notebook example_industries e0 = Done tt e' ∧
         universes e' !! "nyse-reits" = Some {["X"; "Y"]}) ∧
  ¬ substring_of "REIT" "Reit - Office".
Proof.
  intros HR. pose proof (reits_rows _ _ HR) as [Hc Hr].
  split; [|split; [|split; [|split]]].
  - intros r. rewrite Hr, list_elem_of_filter, contains_spec. tauto.
  - intros x.
    rewrite (elem_of_universe_selection _ _
               (λ r, Str.contains "REIT" (as_empty (industry (read_csv master) r)) = true))
      by done.
    by setoid_rewrite contains_spec.
  - intros e e' Hrun. apply notebook_Done_inv in Hrun as (F & R' & A & _ & HR' & _ & ->).
    rewrite HR in HR'. injection HR' as <-.
    apply universes_after_run.
  - exists (env_of (notebook example_industries e0)).
    split; by vm_compute.
  - rewrite <- contains_spec. by vm_compute.
Qed.

Lemma reits_exact_witness :
  reits (read_csv example_industries) =
    inr {| columns := example_header;
           rows := [(0, [Some "X"; NaN; NaN; NaN; Some "REIT - Office"; NaN]);
                    (1, [Some "Y"; NaN; NaN; NaN; Some "REIT"; NaN])] |} ∧
  ∀ r, r ∈ [(0, [Some "X"; NaN; NaN; NaN; Some "REIT - Office"; NaN]);
            (1, [Some "Y"; NaN; NaN; NaN; Some "REIT"; NaN])] ↔
       r ∈ rows (read_csv example_industries) ∧
       substring_of "REIT" (as_empty (industry (read_csv example_industries) r)).
Proof.
  assert (reits (read_csv example_industries) =
            inr {| columns := example_header;
                   rows := [(0, [Some "X"; NaN; NaN; NaN; Some "REIT - Office"; NaN]);
                            (1, [Some "Y"; NaN; NaN; NaN; Some "REIT"; NaN])] |})
    as HR by (vm_compute; reflexivity).
  split; [exact HR|].
  exact (proj1 (reits_exact example_industries _ HR)).
Defined.

(** C4. The adrs selection holds exactly the rows of the table whose
    category, a null read as the empty string, starts with "ADR"; the
    universe published from it holds exactly their identifiers, and a
    complete run publishes it as nyse-adrs.  On the ids P, Q, R with
    categories "ADR Preferred", "Domestic", "ADR" the run publishes
    {P, R}. *)
Theorem adrs_exact (master : CsvFile) (A : DataFrame) :
  adrs (read_csv master) = inr A →
  (∀ r, r ∈ rows A ↔
        r ∈ rows (read_csv master) ∧
        prefix_of "ADR" (as_empty (category (read_csv master) r))) ∧
  (∀ x, x ∈ universe_of A ↔
        ∃ r, r ∈ rows (read_csv master) ∧
             prefix_of "ADR" (as_empty (category (read_csv master) r)) ∧
             row_id (read_csv master) r = Some x) ∧
  (∀ e e', notebook master e = Done tt e' →
           universes e' !! "nyse-adrs" = Some (universe_of A)) ∧
  (∃ e', notebook example_categories e0 = Done tt e' ∧
         universes e' !! "nyse-adrs" = Some {["P"; "R"]}).
Proof.
  intros HA. pose proof (adrs_rows _ _ HA) as [Hc Hr].
  split; [|split; [|split]].
  - intros r. rewrite Hr, list_elem_of_filter. unfold Str.startswith.
    rewrite prefix_spec. tauto.
  - intros x.
    rewrite (elem_of_universe_selection _ _
               (λ r, Str.startswith "ADR" (as_empty (category (read_csv master) r)) = true))
      by done.
    unfold Str.startswith. by setoid_rewrite prefix_spec.
  - intros e e' Hrun. apply notebook_Done_inv in Hrun as (F & R & A' & _ & _ & HA' & ->).
    rewrite HA in HA'. injection HA' as <-.
    apply universes_after_run.
  - exists (env_of (notebook example_categories e0)).
    split; by vm_compute.
Qed.

Lemma adrs_exact_witness :
  adrs (read_csv example_categories) =
    inr {| columns := example_header;
           rows := [(0, [Some "P"; NaN; NaN; NaN; NaN; Some "ADR Preferred"]);
                    (2, [Some "R"; NaN; NaN; NaN; NaN; Some "ADR"])] |} ∧
  ∀ r, r ∈ [(0, [Some "P"; NaN; NaN; NaN; NaN; Some "ADR Preferred"]);
            (2, [Some "R"; NaN; NaN; NaN; NaN; Some "ADR"])] ↔
       r ∈ rows (read_csv example_categories) ∧
       prefix_of "ADR" (as_empty (category (read_csv example_categories) r)).
Proof.
  assert (adrs (read_csv example_categories) =
            inr {| columns := example_header;
                   rows := [(0, [Some "P"; NaN; NaN; NaN; NaN; Some "ADR Preferred"]);
                            (2, [Some "R"; NaN; NaN; NaN; NaN; Some "ADR"])] |})
    as HA by (vm_compute; reflexivity).
  split; [exact HA|].
  exact (proj1 (adrs_exact example_categories _ HA)).
Defined.

Lemma selection_within_all (master : CsvFile) (out : DataFrame)
    (P : nat * list cell → Prop) `{!∀ r, Decision (P r)} :
  columns out = columns (read_csv master) →
  rows out = filter P (rows (read_csv master)) →
  universe_of out ⊆ members master.
Proof.
  intros Hc Hr. apply universe_of_selection; [done|].
  rewrite Hr. apply filter_subseteq.
Qed.

(** C5. After a complete run the four universes are published, and
    each of nyse-financials, nyse-reits and nyse-adrs is a subset of
    nyse-stk, the base universe built from the same table. *)
Theorem exclusions_within_all (master : CsvFile) (e e' : Env) :
  notebook master e = Done tt e' →
  ∃ U F R A : gset string,
    universes e' !! "nyse-stk" = Some U ∧
    universes e' !! "nyse-financials" = Some F ∧
    universes e' !! "nyse-reits" = Some R ∧
    universes e' !! "nyse-adrs" = Some A ∧
    F ⊆ U ∧ R ⊆ U ∧ A ⊆ U.
Proof.
  intros Hrun. apply notebook_Done_inv in Hrun as (F & R & A & HF & HR & HA & ->).
  destruct (universes_after_run master F R A e) as (HU' & HF' & HR' & HA').
  exists (members master), (universe_of F), (universe_of R), (universe_of A).
  repeat (split; [done|]).
  apply financials_rows in HF as [HcF HrF].
  apply reits_rows in HR as [HcR HrR].
  apply adrs_rows in HA as [HcA HrA].
  split; [|split]; eapply selection_within_all; eauto.
Qed.

Lemma exclusions_within_all_witness :
  notebook example_sectors e0 = Done tt (env_of (notebook example_sectors e0)) ∧
  ∃ U F R A : gset string,
    universes (env_of (notebook example_sectors e0)) !! "nyse-stk" = Some U ∧
    universes (env_of (notebook example_sectors e0)) !! "nyse-financials" = Some F ∧
    universes (env_of (notebook example_sectors e0)) !! "nyse-reits" = Some R ∧
    universes (env_of (notebook example_sectors e0)) !! "nyse-adrs" = Some A ∧
    F ⊆ U ∧ R ⊆ U ∧ A ⊆ U.
Proof.
  assert (notebook example_sectors e0 = Done tt (env_of (notebook example_sectors e0)))
    as Hrun by (vm_compute; reflexivity).
  split; [exact Hrun|].
  exact (exclusions_within_all example_sectors e0 _ Hrun).
Defined.





Lemma env_eq (e1 e2 : Env) :
  files e1 = files e2 → universes e1 = universes e2 → e1 = e2.
Proof. destruct e1, e2. cbn [files universes]. by intros -> ->. Qed.

Ltac same_env :=
  apply env_eq;
  unfold after_run, after_reits, after_financials, after_all, stored;
  cbn [files universes];
  apply map_eq; intros k; rewrite !lookup_insert;
  repeat case_decide; congruence.

Lemma rerun_after_all (master : CsvFile) (e : Env) :
  after_all master (after_all master e) = after_all master e.
Proof. same_env. Qed.

Lemma rerun_after_financials (master : CsvFile) (F : DataFrame) (e : Env) :
  after_financials master F (after_financials master F e) = after_financials master F e.
Proof. same_env. Qed.

Lemma rerun_after_reits (master : CsvFile) (F R : DataFrame) (e : Env) :
  after_reits master F R (after_reits master F R e) = after_reits master F R e.
Proof. same_env. Qed.

Lemma rerun_after_run (master : CsvFile) (F R A : DataFrame) (e : Env) :
  after_run master F R A (after_run master F R A e) = after_run master F R A e.
Proof. same_env. Qed.

(** C7. Running the notebook again on the same table, in the
    environment the first run left, ends the same way and leaves the
    same environment: the same files and the same four universes.  The
    way a run ends and the four universes it publishes depend on the
    table alone, not on the environment the run starts in. *)
Theorem rerun_is_identical (master : CsvFile) (e : Env) :
  notebook master (env_of (notebook master e)) = notebook master e ∧
  (∀ name, name ∈ names →
           universes (env_of (notebook master (env_of (notebook master e)))) !! name =
           universes (env_of (notebook master e)) !! name) ∧
  (∀ e2, match notebook master e, notebook master e2 with
         | Done _ a, Done _ b =>
             ∀ name, name ∈ names → universes a !! name = universes b !! name
         | Raised x _, Raised y _ => x = y
         | _, _ => False
         end).
Proof.
  assert (notebook master (env_of (notebook master e)) = notebook master e) as Hsame.
  { rewrite !notebook_run. unfold run_of.
    destruct (pd_read_csv master) as [?|df] eqn:Hp; cbn [env_of];
      [by rewrite rerun_after_all|].
    apply pd_read_csv_inr in Hp as [_ ->].
    destruct (financials _) as [?|F]; cbn [env_of]; [by rewrite rerun_after_all|].
    destruct (reits _) as [?|R]; cbn [env_of]; [by rewrite rerun_after_financials|].
    destruct (adrs _) as [?|A]; cbn [env_of]; [by rewrite rerun_after_reits|].
    destruct (getitem_cols _ _); cbn [env_of]; [by rewrite rerun_after_reits|].
    by rewrite rerun_after_run. }
  split; [exact Hsame|]. split.
  - intros name _. by rewrite Hsame.
  - intros e2. rewrite !notebook_run. unfold run_of.
    destruct (pd_read_csv master) as [?|df] eqn:Hp; [done|].
    apply pd_read_csv_inr in Hp as [_ ->].
    destruct (financials _) as [?|F]; [done|].
    destruct (reits _) as [?|R]; [done|].
    destruct (adrs _) as [?|A]; [done|].
    destruct (getitem_cols _ _); [done|].
    intros name Hin.
    destruct (universes_after_run master F R A e) as (H1 & H2 & H3 & H4).
    destruct (universes_after_run master F R A e2) as (H1' & H2' & H3' & H4').
    unfold names in Hin. rewrite !elem_of_cons in Hin.
    destruct Hin as [->|[->|[->|[->|Hin]]]]; [congruence..|].
    by apply elem_of_nil in Hin.
Qed.









Lemma length_fit (n : nat) (r : list cell) : length (fit n r) = n.
Proof.
  unfold fit. rewrite length_take, length_app, length_replicate. lia.
Qed.

Lemma written_selection (master : CsvFile) (out : DataFrame)
    (P : nat * list cell → Prop) `{!∀ r, Decision (P r)} :
  columns out = columns (read_csv master) →
  rows out = filter P (rows (read_csv master)) →
  ∃ sel,
    sel `sublist_of` rows (read_csv master) ∧
    header (to_csv out) = "" :: header master ∧
    records (to_csv out) = (λ r, Some (pretty r.1) :: r.2) <$> sel ∧
    Forall (λ rec, length rec = S (length (header master))) (records (to_csv out)).
Proof.
  intros Hc Hr. exists (rows out). split; [rewrite Hr; apply sublist_filter|].
  unfold to_csv. cbn [header records]. rewrite Hc. split; [done|]. split; [done|].
  apply Forall_fmap, Forall_forall. intros r Hin. simpl. f_equal.
  rewrite Hr in Hin. apply list_elem_of_filter in Hin as [_ Hin].
  unfold read_csv in Hin. cbn [rows] in Hin.
  apply elem_of_lookup_imap in Hin as (i & rec & -> & _).
  cbn [snd]. rewrite length_fmap. apply length_fit.
Qed.

(** C9, as the code has it.  Each file a complete run writes holds a
    selection of the rows of the loaded table, in table order, under a
    header that is the table's header behind one added first column
    with the empty name; every record is the row's index label followed
    by the row's fields, one per column of the table and in the table's
    column order. *)
Theorem outputs_carry_an_index_column (master : CsvFile) (e e' : Env) :
  notebook master e = Done tt e' →
  ∀ path, path ∈ outputs →
    ∃ f sel,
      files e' !! path = Some f ∧
      sel `sublist_of` rows (read_csv master) ∧
      header f = "" :: header master ∧
      records f = (λ r, Some (pretty r.1) :: r.2) <$> sel ∧
      Forall (λ rec, length rec = S (length (header master))) (records f).
Proof.
  intros Hrun path Hpath.
  apply notebook_Done_inv in Hrun as (F & R & A & HF & HR & HA & ->).
  destruct (files_after_run master F R A e) as (_ & HfF & HfR & HfA).
  apply financials_rows in HF as [HcF HrF].
  apply reits_rows in HR as [HcR HrR].
  apply adrs_rows in HA as [HcA HrA].
  unfold outputs in Hpath. rewrite !elem_of_cons in Hpath.
  destruct Hpath as [->|[->|[->|Hpath]]]; [| | |by apply elem_of_nil in Hpath].
  - destruct (written_selection master F _ HcF HrF) as (sel & H1 & H2 & H3 & H4).
    by exists (to_csv F), sel.
  - destruct (written_selection master R _ HcR HrR) as (sel & H1 & H2 & H3 & H4).
    by exists (to_csv R), sel.
  - destruct (written_selection master A _ HcA HrA) as (sel & H1 & H2 & H3 & H4).
    by exists (to_csv A), sel.
Qed.

Lemma outputs_carry_an_index_column_witness :
  notebook example_sectors e0 = Done tt (env_of (notebook example_sectors e0)) ∧
  ∃ f sel,
    files (env_of (notebook example_sectors e0)) !! "sharadar_nyse_financials.csv" = Some f ∧
    sel `sublist_of` rows (read_csv example_sectors) ∧
    header f = "" :: header example_sectors ∧
    records f = (λ r, Some (pretty r.1) :: r.2) <$> sel ∧
    Forall (λ rec, length rec = S (length (header example_sectors))) (records f).
Proof.
  assert (notebook example_sectors e0 = Done tt (env_of (notebook example_sectors e0)))
    as Hrun by (vm_compute; reflexivity).
  split; [exact Hrun|].
  apply (outputs_carry_an_index_column example_sectors e0 _ Hrun).
  unfold outputs. apply list_elem_of_here.
Defined.

(** Counterexample to C9 as stated: the file written for the
    financials of the example table has one column more than the
    table. *)
Lemma output_schema_differs :
  ∃ e' f,
    notebook example_sectors e0 = Done tt e' ∧
    files e' !! "sharadar_nyse_financials.csv" = Some f ∧
    header f ≠ header example_sectors ∧
    length (header f) = S (length (header example_sectors)) ∧
    records f = [[Some "0"; Some "A"; NaN; NaN; Some "Financial Services"; NaN; NaN]].
Proof.
  exists (env_of (notebook example_sectors e0)). eexists.
  split; [by vm_compute|]. split; [by vm_compute|].
  split; [|split; by vm_compute].
  apply (bool_decide_unpack _). by vm_compute.
Qed.

Lemma labels_once (master : CsvFile) (out : DataFrame)
    (P : nat * list cell → Prop) `{!∀ r, Decision (P r)} :
  rows out = filter P (rows (read_csv master)) →
  rows out `sublist_of` rows (read_csv master) ∧
  NoDup (rows out).*1 ∧
  NoDup (rows out).
Proof.
  intros Hr.
  assert (rows out `sublist_of` rows (read_csv master)) as Hsub
    by (rewrite Hr; apply sublist_filter).
  assert (NoDup (rows out).*1) as Hnd.
  { eapply sublist_NoDup; [apply NoDup_labels|]. by apply fmap_sublist. }
  repeat split; [done | done |].
  by eapply NoDup_fmap_1.
Qed.

(** C10. In a complete run each of the three files is written from a
    selection of the loaded table that keeps the table's row order and
    holds every row, and every index label, at most once.  Each
    selection is taken from the whole table by its own test alone, so a
    row that passes two tests is in both selections; the row of the
    example that is a financial and a REIT is published in both
    universes. *)
Theorem filters_keep_order_and_multiplicity (master : CsvFile) (e e' : Env) :
  notebook master e = Done tt e' →
  ∃ F R A,
    files e' !! "sharadar_nyse_financials.csv" = Some (to_csv F) ∧
    files e' !! "sharadar_nyse_reits.csv" = Some (to_csv R) ∧
    files e' !! "sharadar_nyse_adrs.csv" = Some (to_csv A) ∧
    (rows F `sublist_of` rows (read_csv master) ∧ NoDup (rows F).*1 ∧ NoDup (rows F)) ∧
    (rows R `sublist_of` rows (read_csv master) ∧ NoDup (rows R).*1 ∧ NoDup (rows R)) ∧
    (rows A `sublist_of` rows (read_csv master) ∧ NoDup (rows A).*1 ∧ NoDup (rows A)) ∧
    (∀ r, r ∈ rows F ↔
          r ∈ rows (read_csv master) ∧
          sector (read_csv master) r = Some "Financial Services") ∧
    (∀ r, r ∈ rows R ↔
          r ∈ rows (read_csv master) ∧
          substring_of "REIT" (as_empty (industry (read_csv master) r))) ∧
    (∀ r, r ∈ rows A ↔
          r ∈ rows (read_csv master) ∧
          prefix_of "ADR" (as_empty (category (read_csv master) r))) ∧
    (∃ e1, notebook example_overlap e0 = Done tt e1 ∧
           universes e1 !! "nyse-financials" = Some {["M"]} ∧
           universes e1 !! "nyse-reits" = Some {["M"]}).
Proof.
  intros Hrun.
  apply notebook_Done_inv in Hrun as (F & R & A & HF & HR & HA & ->).
  destruct (files_after_run master F R A e) as (_ & HfF & HfR & HfA).
  exists F, R, A. do 3 (split; [done|]).
  pose proof (financials_rows _ _ HF) as [_ HrF].
  pose proof (reits_rows _ _ HR) as [_ HrR].
  pose proof (adrs_rows _ _ HA) as [_ HrA].
  split; [by eapply labels_once|].
  split; [by eapply labels_once|].
  split; [by eapply labels_once|].
  split; [|split; [|split]].
  - intros r. rewrite HrF, list_elem_of_filter. tauto.
  - intros r. rewrite HrR, list_elem_of_filter, contains_spec. tauto.
  - intros r. rewrite HrA, list_elem_of_filter. unfold Str.startswith.
    rewrite prefix_spec. tauto.
  - exists (env_of (notebook example_overlap e0)).
    split; [by vm_compute|]. split; by vm_compute.
Qed.

Lemma filters_keep_order_and_multiplicity_witness :
  notebook example_overlap e0 = Done tt (env_of (notebook example_overlap e0)) ∧
  ∃ F R A,
    files (env_of (notebook example_overlap e0)) !! "sharadar_nyse_financials.csv"
      = Some (to_csv F) ∧
    files (env_of (notebook example_overlap e0)) !! "sharadar_nyse_reits.csv"
      = Some (to_csv R) ∧
    files (env_of (notebook example_overlap e0)) !! "sharadar_nyse_adrs.csv"
      = Some (to_csv A) ∧
    rows F `sublist_of` rows (read_csv example_overlap) ∧
    rows R `sublist_of` rows (read_csv example_overlap) ∧
    rows A `sublist_of` rows (read_csv example_overlap).
Proof.
  assert (notebook example_overlap e0 = Done tt (env_of (notebook example_overlap e0)))
    as Hrun by (vm_compute; reflexivity).
  split; [exact Hrun|].
  destruct (filters_keep_order_and_multiplicity example_overlap e0 _ Hrun)
    as (F & R & A & H1 & H2 & H3 & (H4 & _) & (H5 & _) & (H6 & _) & _).
  exists F, R, A.
  exact (conj H1 (conj H2 (conj H3 (conj H4 (conj H5 H6))))).
Defined.

(** ** Further properties of the cells *)

Lemma unique_elem (s : list cell) (c : cell) : c ∈ unique s ↔ c ∈ s.
Proof.
  induction s as [|a s IH]; [done|].
  cbn [unique]. rewrite !elem_of_cons, list_elem_of_filter, IH.
  destruct (decide (c = a)) as [->|Hne]; [tauto|]. tauto.
Qed.

Lemma unique_NoDup (s : list cell) : NoDup (unique s).
Proof.
  induction s as [|a s IH]; [apply NoDup_nil_2|].
  cbn [unique]. apply NoDup_cons. split.
  - rewrite list_elem_of_filter. by intros [Hne _].
  - by apply NoDup_filter.
Qed.

Lemma unique_snoc (s : list cell) (c : cell) :
  unique (s ++ [c]) = if decide (c ∈ s) then unique s else (unique s ++ [c])%list.
Proof.
  induction s as [|a s IH].
  - rewrite decide_False by apply not_elem_of_nil. done.
  - cbn [app unique]. rewrite IH.
    destruct (decide (c = a)) as [->|Hne].
    + rewrite (decide_True (P := a ∈ a :: s)) by apply list_elem_of_here.
      case_decide as Hin; [done|].
      rewrite filter_app, filter_cons_False by (intros H; by apply H).
      cbn [filter list_filter]. by rewrite app_nil_r.
    + case_decide as Hin.
      * by rewrite decide_True by by apply list_elem_of_further.
      * rewrite decide_False by (rewrite elem_of_cons; tauto).
        rewrite filter_app, filter_cons_True by done. done.
Qed.

(** X1. [s.unique()] lists every value of the column exactly once, NaN
    included, and in order of first appearance: one more element at the
    end of the column adds itself at the end of the listing when it is
    new, and changes nothing when it has been seen. *)
Theorem unique_lists_values_once (s : list cell) (c : cell) :
  NoDup (unique s) ∧
  (c ∈ unique s ↔ c ∈ s) ∧
  unique (s ++ [c]) = (if decide (c ∈ s) then unique s else (unique s ++ [c])%list) ∧
  unique (unique s) = unique s.
Proof.
  split; [apply unique_NoDup|]. split; [apply unique_elem|].
  split; [apply unique_snoc|].
  pose proof (unique_NoDup s) as Hnd.
  induction (unique s) as [|a u IH]; [done|].
  apply NoDup_cons in Hnd as [Ha Hnd]. cbn [unique]. rewrite (IH Hnd).
  f_equal. clear IH Hnd. induction u as [|b u IH]; [done|].
  apply not_elem_of_cons in Ha as [Hne Ha].
  rewrite filter_cons_True by done. f_equal. by apply IH.
Qed.

Lemma mapM_get_loc (cols names : list string) (r : list cell) (js : list nat) :
  mapM (M := option) (λ n, get_loc n cols) names = Some js →
  (λ j, field j r) <$> js =
  (λ n, match get_loc n cols with Some j => field j r | None => NaN end) <$> names.
Proof.
  rewrite mapM_Some. induction 1 as [|n j names js Hn _ IH]; [done|].
  cbn [fmap list_fmap]. rewrite Hn. f_equal. exact IH.
Qed.

Lemma getitem_cols_present (df : DataFrame) (cols : list string) :
  (∀ c, c ∈ cols → c ∈ columns df) →
  getitem_cols df cols =
  inr {| columns := cols;
         rows := (λ r, (r.1, (λ n, at_col df n r) <$> cols)) <$> rows df |}.
Proof.
  intros Hall. unfold getitem_cols.
  destruct (mapM _ cols) as [js|] eqn:E.
  - do 2 f_equal. apply list_fmap_ext. intros _ r _. cbn beta. f_equal.
    by rewrite (mapM_get_loc _ _ _ _ E).
  - exfalso. assert (is_Some (mapM (M := option) (λ n, get_loc n (columns df)) cols)) as [? Hs].
    { apply mapM_is_Some, Forall_forall. intros c Hc. by apply get_loc_is_Some, Hall. }
    congruence.
Qed.

(** X3. The preview cell shows the first five rows of the adrs
    selection (all of them when there are fewer), under their own index
    labels, cut down to the three columns asked for and in the order
    asked for; it writes no file and publishes nothing. *)
Theorem preview_shows_first_five_adrs (df A : DataFrame) (e : Env) :
  adrs df = inr A →
  "sharadar_Ticker" ∈ columns df →
  "sharadar_Name" ∈ columns df →
  ∃ sel,
    cell_8 df e = Done sel e ∧
    columns sel = ["sharadar_Ticker"; "sharadar_Name"; "sharadar_Category"] ∧
    length (rows sel) = length (rows A) `min` 5 ∧
    rows sel =
      (λ r, (r.1, [at_col df "sharadar_Ticker" r;
                   at_col df "sharadar_Name" r;
                   at_col df "sharadar_Category" r])) <$> take 5 (rows A).
Proof.
  intros HA HT HN.
  pose proof (adrs_rows _ _ HA) as [Hc Hr].
  assert ("sharadar_Category" ∈ columns df) as HC.
  { rewrite adrs_spec in HA.
    destruct (get_loc "sharadar_Category" (columns df)) eqn:E; [|done].
    apply get_loc_Some in E. by eapply list_elem_of_lookup_2. }
  eexists. split.
  - unfold cell_8. rewrite run_bind, HA. cbn [eval]. rewrite run_bind.
    rewrite getitem_cols_present.
    + reflexivity.
    + intros c. rewrite Hc, !elem_of_cons.
      intros [->|[->|[->|Hnil]]]; [done..|]. by apply elem_of_nil in Hnil.
  - cbn [head columns rows]. split; [done|]. split.
    + rewrite length_take, length_fmap. lia.
    + rewrite <- fmap_take. apply list_fmap_ext. intros _ r _.
      unfold at_col. by rewrite Hc.
Qed.

Lemma preview_shows_first_five_adrs_witness :
  adrs (read_csv example_categories) =
    inr {| columns := example_header;
           rows := [(0, [Some "P"; NaN; NaN; NaN; NaN; Some "ADR Preferred"]);
                    (2, [Some "R"; NaN; NaN; NaN; NaN; Some "ADR"])] |} ∧
  ∃ sel,
    cell_8 (read_csv example_categories) e0 = Done sel e0 ∧
    columns sel = ["sharadar_Ticker"; "sharadar_Name"; "sharadar_Category"] ∧
    length (rows sel) = 2.
Proof.
  assert (adrs (read_csv example_categories) =
            inr {| columns := example_header;
                   rows := [(0, [Some "P"; NaN; NaN; NaN; NaN; Some "ADR Preferred"]);
                            (2, [Some "R"; NaN; NaN; NaN; NaN; Some "ADR"])] |})
    as HA by (vm_compute; reflexivity).
  split; [exact HA|].
  destruct (preview_shows_first_five_adrs (read_csv example_categories) _ e0 HA)
    as (sel & H1 & H2 & H3 & _).
  - apply (bool_decide_unpack _). vm_compute. exact I.
  - apply (bool_decide_unpack _). vm_compute. exact I.
  - exists sel. exact (conj H1 (conj H2 H3)).
Defined.

Lemma stored_files_ne (path name p : string) (f : CsvFile) (e : Env) :
  p ≠ path → files (stored path name f e) !! p = files e !! p.
Proof. intros Hne. unfold stored. cbn [files]. by rewrite lookup_insert_ne. Qed.

Lemma stored_universes_ne (path name n : string) (f : CsvFile) (e : Env) :
  n ≠ name → universes (stored path name f e) !! n = universes e !! n.
Proof. intros Hne. unfold stored. cbn [universes]. by rewrite lookup_insert_ne. Qed.

(** X5. A run, whichever way it ends, touches nothing but its own four
    files and four universe names: every other file of the working
    directory and every other published universe is as before. *)
Theorem run_touches_only_its_own (master : CsvFile) (e : Env) (path name : string) :
  path ∉ "sharadar_nyse_securities.csv" :: outputs →
  name ∉ names →
  files (env_of (notebook master e)) !! path = files e !! path ∧
  universes (env_of (notebook master e)) !! name = universes e !! name.
Proof.
  unfold outputs, names. rewrite !not_elem_of_cons.
  intros (Hp0 & Hp1 & Hp2 & Hp3 & _) (Hn0 & Hn1 & Hn2 & Hn3 & _).
  rewrite notebook_run. unfold run_of.
  destruct (pd_read_csv master) as [?|df] eqn:Hp; cbn [env_of].
  { unfold after_all. by rewrite stored_files_ne, stored_universes_ne. }
  apply pd_read_csv_inr in Hp as [_ ->].
  destruct (financials _) as [?|F]; cbn [env_of].
  { unfold after_all. by rewrite stored_files_ne, stored_universes_ne. }
  destruct (reits _) as [?|R]; cbn [env_of].
  { unfold after_financials, after_all.
    by rewrite !stored_files_ne, !stored_universes_ne. }
  assert (files (after_reits master F R e) !! path = files e !! path ∧
          universes (after_reits master F R e) !! name = universes e !! name) as H3.
  { unfold after_reits, after_financials, after_all.
    by rewrite !stored_files_ne, !stored_universes_ne. }
  destruct (adrs _) as [?|A]; cbn [env_of]; [exact H3|].
  destruct (getitem_cols _ _); cbn [env_of]; [exact H3|].
  unfold after_run. rewrite stored_files_ne, stored_universes_ne by done. exact H3.
Qed.

Lemma run_touches_only_its_own_witness :
  ("notes.txt" ∉ "sharadar_nyse_securities.csv" :: outputs) ∧
  ("nasdaq-stk" ∉ names) ∧
  files (env_of (notebook example_sectors e0)) !! "notes.txt" = files e0 !! "notes.txt" ∧
  universes (env_of (notebook example_sectors e0)) !! "nasdaq-stk" = universes e0 !! "nasdaq-stk".
Proof.
  assert ("notes.txt" ∉ "sharadar_nyse_securities.csv" :: outputs) as H1.
  { apply (bool_decide_unpack _). vm_compute. exact I. }
  assert ("nasdaq-stk" ∉ names) as H2.
  { apply (bool_decide_unpack _). vm_compute. exact I. }
  split; [exact H1|]. split; [exact H2|].
  exact (run_touches_only_its_own example_sectors e0 _ _ H1 H2).
Defined.










Lemma mask_labels {A B : Type} (l : list (A * B)) (mask : list (option bool)) :
  ((filter (λ p, p.2 = Some true) (zip l mask)).*1).*1 =
  (filter (λ p, p.2 = Some true) (zip l.*1 mask)).*1.
Proof.
  revert mask. induction l as [|[a b] l IH]; intros [|m mask]; try done.
  cbn [zip zip_with fmap list_fmap]. rewrite !filter_cons. cbn [snd].
  case_decide; cbn [fmap list_fmap fst]; [f_equal|]; apply IH.
Qed.

Lemma getitem_mask_labels (df out : DataFrame) (mask : list (option bool)) :
  getitem_mask df mask = inr out →
  length mask = length (rows df) ∧
  (rows out).*1 = (filter (λ p, p.2 = Some true) (zip (rows df).*1 mask)).*1.
Proof.
  unfold getitem_mask. case_decide as Hlen; [|done]. case_decide; [|done].
  intros [= <-]. split; [done|]. cbn [rows]. apply mask_labels.
Qed.

Lemma labels_read_csv (master : CsvFile) :
  (rows (read_csv master)).*1 = seq 0 (length (rows (read_csv master))).
Proof.
  rewrite <- (length_fmap fst).
  unfold read_csv. cbn [rows]. rewrite fmap_imap.
  rewrite (imap_ext _ (λ i _, id i)) by done.
  by rewrite imap_seq_0, list_fmap_id, length_seq.
Qed.

Lemma same_mask_same_labels (m1 m2 : CsvFile) (mask : list (option bool))
    (out1 out2 : DataFrame) :
  getitem_mask (read_csv m1) mask = inr out1 →
  getitem_mask (read_csv m2) mask = inr out2 →
  (rows out1).*1 = (rows out2).*1.
Proof.
  intros H1 H2.
  apply getitem_mask_labels in H1 as [Hl1 ->].
  apply getitem_mask_labels in H2 as [Hl2 ->].
  rewrite !labels_read_csv.
  assert (length (rows (read_csv m1)) = length (rows (read_csv m2))) as -> by congruence.
  done.
Qed.

(** X10. Which rows a filter selects depends on the table only through
    the one column the filter reads: two tables that agree on the
    sector column give financials selections with the same index
    labels, whatever their other columns hold, and likewise for the
    industry column and the reits, the category column and the adrs. *)
Theorem selection_depends_only_on_its_column (m1 m2 : CsvFile) :
  (getattr (read_csv m1) "sharadar_Sector" = getattr (read_csv m2) "sharadar_Sector" →
   ∀ F1 F2, financials (read_csv m1) = inr F1 → financials (read_csv m2) = inr F2 →
            (rows F1).*1 = (rows F2).*1) ∧
  (getattr (read_csv m1) "sharadar_Industry" = getattr (read_csv m2) "sharadar_Industry" →
   ∀ R1 R2, reits (read_csv m1) = inr R1 → reits (read_csv m2) = inr R2 →
            (rows R1).*1 = (rows R2).*1) ∧
  (getattr (read_csv m1) "sharadar_Category" = getattr (read_csv m2) "sharadar_Category" →
   ∀ A1 A2, adrs (read_csv m1) = inr A1 → adrs (read_csv m2) = inr A2 →
            (rows A1).*1 = (rows A2).*1).
Proof.
  split; [|split].
  - intros Hs F1 F2. unfold financials. rewrite <- Hs.
    destruct (getattr (read_csv m1) _) as [?|s]; [done|].
    cbn [mbind exn_bind]. apply same_mask_same_labels.
  - intros Hs R1 R2. unfold reits. rewrite <- Hs.
    destruct (getattr (read_csv m1) _) as [?|s]; [done|].
    cbn [mbind exn_bind]. apply same_mask_same_labels.
  - intros Hs A1 A2. unfold adrs. rewrite <- Hs.
    destruct (getattr (read_csv m1) _) as [?|s]; [done|].
    cbn [mbind exn_bind]. apply same_mask_same_labels.
Qed.

Lemma selection_depends_only_on_its_column_witness :
  getattr (read_csv example_sectors) "sharadar_Sector" =
    getattr (read_csv example_sectors_other) "sharadar_Sector" ∧
  ∀ F1 F2, financials (read_csv example_sectors) = inr F1 →
           financials (read_csv example_sectors_other) = inr F2 →
           (rows F1).*1 = (rows F2).*1.
Proof.
  assert (getattr (read_csv example_sectors) "sharadar_Sector" =
            getattr (read_csv example_sectors_other) "sharadar_Sector")
    as Hs by (vm_compute; reflexivity).
  split; [exact Hs|].
  exact (proj1 (selection_depends_only_on_its_column example_sectors example_sectors_other) Hs).
Defined.
